(** * Card gateway service (server.js): a shallow embedding

    The service is an Express application in front of one MySQL table.
    This development embeds its request-handling layer: the JavaScript
    values that arrive in request bodies, the table-name qualifier [fqtn],
    the four store-facing handlers and the health handler as programs whose
    effects are a call of [pool.execute], a line on [console.error] and a
    reading of the clock, the middleware chain and the route table.  The
    store, the CORS middleware, the JSON body parser and Express's path
    matcher are external collaborators; they are taken as parameters, and
    small reference instances of them are given so that every statement can
    be run on concrete requests. *)

From Stdlib Require Import ZArith Lia Bool Ascii String.
From stdpp Require Import base option list strings gmap pretty.

Set Warnings "-register-all".

Local Open Scope string_scope.
Local Open Scope Z_scope.

(** ** JavaScript values *)

Module Js.

(** The values a JSON body, a URL parameter or a driver result can hold.
    Numbers are kept as integers (ids, row counts); an object is the list
    of its own properties in insertion order. *)
Inductive value : Type :=
| Undefined
| Null
| Bool (b : bool)
| Num (n : Z)
| Str (s : string)
| Arr (items : list value)
| Obj (props : list (string * value)).

(** What a [throw] carries.  [StoreError] is the rejection of
    [pool.execute], with the driver's detail; [TypeError] is raised by the
    language itself. *)
Inductive exn : Type :=
| TypeError
| StoreError (detail : string).

(** ToBoolean: [!v] is [negb (truthy v)]. *)
Definition truthy (v : value) : bool :=
  match v with
  | Undefined | Null => false
  | Bool b => b
  | Num n => negb (n =? 0)
  | Str s => negb (String.eqb s "")
  | Arr _ | Obj _ => true
  end.

Definition falsy (v : value) : bool := negb (truthy v).

(** [a || b] *)
Definition or_else (a b : value) : value := if truthy a then a else b.

(** Own-property lookup in a property list. *)
Fixpoint own (k : string) (props : list (string * value)) : option value :=
  match props with
  | [] => None
  | (k', v) :: rest => if String.eqb k k' then Some v else own k rest
  end.

(** [v.k] for a key [k] that no built-in prototype defines (the handlers
    read [id], [card_name], [card_pic], [affectedRows] and [insertId]
    only): the own property of an object, [undefined] on every other
    value that has properties, and a TypeError on [undefined] and
    [null]. *)
Definition get (v : value) (k : string) : exn + value :=
  match v with
  | Undefined | Null => inl TypeError
  | Obj props => inr (default Undefined (own k props))
  | _ => inr Undefined
  end.

(** [const { k } = v] where [v] is known not to be [undefined] or [null]:
    the same lookup, without the failure case. *)
Definition field (v : value) (k : string) : value :=
  match v with
  | Obj props => default Undefined (own k props)
  | _ => Undefined
  end.

(** [a === b] against a number literal. *)
Definition strict_eq_num (v : value) (n : Z) : bool :=
  match v with
  | Num m => m =? n
  | _ => false
  end.

Definition join (sep : string) (parts : list string) : string :=
  match parts with
  | [] => ""
  | p :: ps => fold_left (fun acc q => acc +:+ sep +:+ q) ps p
  end.

(** ToString, as a template literal applies it to [${v}].  A plain object
    is rendered by [Object.prototype.toString] unless it has an own
    [toString] property; parsed JSON never holds a function, so such a
    property is not callable, [valueOf] (own and not callable, or
    inherited and returning the object) gives no primitive either, and the
    conversion throws a TypeError ([None]).  An array is rendered by
    [join], which prints [undefined] and [null] items as the empty
    string. *)
Fixpoint to_string (v : value) : option string :=
  match v with
  | Undefined => Some "undefined"
  | Null => Some "null"
  | Bool true => Some "true"
  | Bool false => Some "false"
  | Num n => Some (pretty n)
  | Str s => Some s
  | Arr items =>
      let item (x : value) : option string :=
        match x with
        | Undefined | Null => Some ""
        | _ => to_string x
        end in
      join "," <$> mapM item items
  | Obj props =>
      match own "toString" props with
      | Some _ => None
      | None => Some "[object Object]"
      end
  end.

End Js.

Import Js.

(** ** Configuration and the qualified table name *)

Module Config.

(** [process.env]: every variable that is set holds a string. *)
Abbreviation env := (gmap string string).

(** [process.env.X], as a JavaScript value. *)
Definition env_get (e : env) (k : string) : value :=
  match e !! k with
  | Some s => Str s
  | None => Undefined
  end.

(** The class [\w] of a regular expression without flags. *)
Definition word_char (c : ascii) : bool :=
  let n := Ascii.N_of_ascii c in
  ((48 <=? n) && (n <=? 57) || (65 <=? n) && (n <=? 90)
   || (97 <=? n) && (n <=? 122) || (n =? 95))%N.

Fixpoint all_word (s : string) : bool :=
  match s with
  | EmptyString => true
  | String c rest => word_char c && all_word rest
  end.

(** [/^\w+$/.test(s)]: one word character or more, and nothing else up
    to the end of the input. *)
Definition word_only (s : string) : bool :=
  match s with
  | EmptyString => false
  | String _ _ => all_word s
  end.

(** [const CARDS_TABLE = process.env.CARDS_TABLE || 'cards'] *)
Definition CARDS_TABLE (e : env) : string :=
  match or_else (env_get e "CARDS_TABLE") (Str "cards") with
  | Str s => s
  | _ => "cards"
  end.

(** [safeDb] of [fqtn]: [db && /^\w+$/.test(db) ? `\`${db}\`.` : ''] *)
Definition safeDb (e : env) : string :=
  match env_get e "DB_NAME" with
  | Str db => if truthy (Str db) && word_only db then "`" +:+ db +:+ "`." else ""
  | _ => ""
  end.

(** [safeTable] of [fqtn] *)
Definition safeTable (e : env) : string :=
  if word_only (CARDS_TABLE e) then "`" +:+ CARDS_TABLE e +:+ "`" else "`cards`".

Definition fqtn (e : env) : string := safeDb e +:+ safeTable e.

End Config.

Import Config.

(** ** Handler programs *)

Module Http.

(** What a handler leaves on the wire: the status code and the payload
    given to [res.json], or no payload after [res.send()]. *)
Record response : Type := Response { status : Z; body : option value }.

(** The request as the handlers read it. *)
Record request : Type := Request {
  method : string;
  originalUrl : string;
  req_body : value;
  params : list (string * string)
}.

(** [req.params]: an object whose properties are the strings that the
    router cut out of the path. *)
Definition params_object (req : request) : value :=
  Obj (prod_map id Str <$> params req).

(** How [await pool.execute(sql, values)] settles.  The driver resolves to
    the pair [[result, fields]]; [Resolved] keeps its first component,
    the one the handlers destructure. *)
Inductive outcome : Type :=
| Resolved (result : value)
| Rejected (e : exn).

(** An asynchronous function body: it returns, throws, or performs one of
    three effects and goes on with the answer. *)
Inductive prog (A : Type) : Type :=
| Ret (a : A)
| Throw (e : exn)
| ConsoleError (tag : string) (e : exn) (k : prog A)
| Clock (k : string → prog A)
| Execute (sql : string) (values : list value) (k : outcome → prog A).

Arguments Ret {A} a.
Arguments Throw {A} e.
Arguments ConsoleError {A} tag e k.
Arguments Clock {A} k.
Arguments Execute {A} sql values k.

Fixpoint bind {A B : Type} (p : prog A) (f : A → prog B) : prog B :=
  match p with
  | Ret a => f a
  | Throw e => Throw e
  | ConsoleError tag e k => ConsoleError tag e (bind k f)
  | Clock k => Clock (λ t, bind (k t) f)
  | Execute sql vs k => Execute sql vs (λ o, bind (k o) f)
  end.

#[global] Instance prog_ret : MRet prog := @Ret.
#[global] Instance prog_bind : MBind prog := λ A B f p, bind p f.

(** [try { p } catch (err) { h err }] *)
Fixpoint try_catch {A : Type} (p : prog A) (h : exn → prog A) : prog A :=
  match p with
  | Ret a => Ret a
  | Throw e => h e
  | ConsoleError tag e k => ConsoleError tag e (try_catch k h)
  | Clock k => Clock (λ t, try_catch (k t) h)
  | Execute sql vs k => Execute sql vs (λ o, try_catch (k o) h)
  end.

(** [const [result] = await pool.execute(sql, values)] *)
Definition await_execute (sql : string) (vs : list value) : prog value :=
  Execute sql vs (λ o,
    match o with
    | Resolved result => Ret result
    | Rejected e => Throw e
    end).

(** [v.k] inside a function body. *)
Definition read (v : value) (k : string) : prog value :=
  match get v k with
  | inr x => Ret x
  | inl e => Throw e
  end.

(** [${v}] inside a template literal. *)
Definition interpolate (v : value) : prog string :=
  match to_string v with
  | Some s => Ret s
  | None => Throw TypeError
  end.

(** [new Date().toISOString()] *)
Definition now : prog string := Clock Ret.

(** [res.status(code).json(payload)], [res.json(payload)] (status 200) and
    [res.status(code).send()]. *)
Definition json (code : Z) (payload : value) : response :=
  Response code (Some payload).
Definition send_empty (code : Z) : response := Response code None.

Definition message (text : string) : value := Obj [("message", Str text)].

End Http.

Import Http.

(** ** The handlers of server.js *)

Module Server.

Section Handlers.

Variable e : env.

(** The statement texts, as the template literals build them. *)
Definition select_sql : string := "SELECT * FROM " +:+ fqtn e.
Definition insert_sql : string :=
  "INSERT INTO " +:+ fqtn e +:+ " (card_name, card_pic) VALUES (?, ?)".
Definition update_sql : string :=
  "UPDATE " +:+ fqtn e +:+ " SET card_name = ?, card_pic = ? WHERE id = ?".
Definition delete_sql : string :=
  "DELETE FROM " +:+ fqtn e +:+ " WHERE id = ?".

(** [app.get('/health', ...)] *)
Definition health (req : request) : prog response :=
  time ← now;
  mret (json 200 (Obj [("status", Str "ok"); ("time", Str time)])).

(** [app.get('/allcards', ...)] *)
Definition allcards (req : request) : prog response :=
  try_catch
    (rows ← await_execute select_sql [];
     mret (json 200 rows))
    (λ err,
       ConsoleError "[allcards] error:" err
         (mret (json 500 (message "Server error for allcards")))).

(** [app.post('/addcard', ...)] *)
Definition addcard (req : request) : prog response :=
  let body := or_else (req_body req) (Obj []) in
  card_name ← read body "card_name";
  card_pic ← read body "card_pic";
  if falsy card_name || falsy card_pic then
    mret (json 400 (message "card_name and card_pic are required"))
  else
    try_catch
      (result ← await_execute insert_sql [card_name; card_pic];
       insertId ← read result "insertId";
       name ← interpolate card_name;
       mret (json 201 (Obj [("id", insertId);
                            ("card_name", card_name);
                            ("card_pic", card_pic);
                            ("message", Str ("Card " +:+ name +:+ " added successfully"))])))
      (λ err,
         ConsoleError "[addcard] error:" err
           (name ← interpolate card_name;
            mret (json 500 (message ("Server error - could not add card " +:+ name))))).

(** [app.put('/updatecard', ...)] *)
Definition updatecard (req : request) : prog response :=
  let body := or_else (req_body req) (Obj []) in
  id ← read body "id";
  card_name ← read body "card_name";
  card_pic ← read body "card_pic";
  if falsy id then mret (json 400 (message "id is required"))
  else if falsy card_name || falsy card_pic then
    mret (json 400 (message "card_name and card_pic are required"))
  else
    try_catch
      (result ← await_execute update_sql [card_name; card_pic; id];
       affectedRows ← read result "affectedRows";
       if strict_eq_num affectedRows 0 then
         shown ← interpolate id;
         mret (json 404 (message ("No card found with id " +:+ shown)))
       else
         mret (json 200 (Obj [("message", Str "Card updated");
                              ("id", id);
                              ("card_name", card_name);
                              ("card_pic", card_pic)])))
      (λ err,
         ConsoleError "[updatecard] error:" err
           (mret (json 500 (message "Server error - could not update card")))).

(** [app.delete('/deletecard/:id', ...)] *)
Definition deletecard (req : request) : prog response :=
  id ← read (params_object req) "id";
  if falsy id then mret (json 400 (message "id is required"))
  else
    try_catch
      (result ← await_execute delete_sql [id];
       affectedRows ← read result "affectedRows";
       if strict_eq_num affectedRows 0 then
         shown ← interpolate id;
         mret (json 404 (message ("No card found with id " +:+ shown)))
       else
         mret (send_empty 204))
      (λ err,
         ConsoleError "[deletecard] error:" err
           (mret (json 500 (message "Server error - could not delete card")))).

(** The catch-all [app.use((req, res) => ...)] registered last. *)
Definition not_found (req : request) : prog response :=
  mret (json 404 (Obj [("message", Str "Route not found");
                       ("path", Str (originalUrl req))])).

End Handlers.

(** The four store-facing operations, their handlers, the statement each
    one sends and the values it binds. *)
Inductive operation : Type := ListAll | Create | Update | Delete.

Definition handler_of (op : operation) (e : env) : request → prog response :=
  match op with
  | ListAll => allcards e
  | Create => addcard e
  | Update => updatecard e
  | Delete => deletecard e
  end.

Definition statement_of (op : operation) (e : env) : string :=
  match op with
  | ListAll => select_sql e
  | Create => insert_sql e
  | Update => update_sql e
  | Delete => delete_sql e
  end.

Definition bound_values (op : operation) (req : request) : list value :=
  match op with
  | ListAll => []
  | Create => [field (req_body req) "card_name"; field (req_body req) "card_pic"]
  | Update => [field (req_body req) "card_name"; field (req_body req) "card_pic";
               field (req_body req) "id"]
  | Delete => [field (params_object req) "id"]
  end.

End Server.

Import Server.

(** ** Middleware, routing and the application *)

Module App.

(** A middleware either answers the request itself, or hands the request
    on to the next layer with the body it has settled on (the method and
    the URL of a request never change on the way). *)
Inductive passage : Type :=
| Next (body : value)
| Ended (resp : response).

Definition middleware : Type := request → passage.

(** Express's matcher: does the route registered for this method and path
    pattern accept the request, and with which route parameters. *)
Definition matcher : Type := string → string → request → option (list (string * string)).

Definition handler : Type := request → prog response.

Definition with_body (req : request) (b : value) : request :=
  Request (method req) (originalUrl req) b (params req).

Definition with_params (req : request) (ps : list (string * string)) : request :=
  Request (method req) (originalUrl req) (req_body req) ps.

Section Application.

Variable cors : middleware.          (* app.use(cors()) *)
Variable express_json : middleware.  (* app.use(express.json()) *)
Variable route_match : matcher.
Variable e : env.

(** The five routes, in registration order. *)
Definition routes : list (string * string * handler) :=
  [ ("GET", "/health", health);
    ("GET", "/allcards", allcards e);
    ("POST", "/addcard", addcard e);
    ("PUT", "/updatecard", updatecard e);
    ("DELETE", "/deletecard/:id", deletecard e) ].

(** The router: the first route that accepts the request handles it (no
    handler calls [next]); a request that no route accepts falls through
    to the catch-all. *)
Fixpoint dispatch (rs : list (string * string * handler)) (req : request)
  : prog response :=
  match rs with
  | [] => not_found req
  | (m, pattern, h) :: rest =>
      match route_match m pattern req with
      | Some ps => h (with_params req ps)
      | None => dispatch rest req
      end
  end.

Definition app (req : request) : prog response :=
  match cors req with
  | Ended resp => mret resp
  | Next b1 =>
      match express_json (with_body req b1) with
      | Ended resp => mret resp
      | Next b2 => dispatch routes (with_body req b2)
      end
  end.

End Application.

End App.

Import App.

(** ** Running a handler against a connection pool *)

Module Run.

(** How an invocation of an asynchronous handler ends: it has sent a
    response, or an exception left the function (its promise rejects and
    the handler has sent nothing). *)
Inductive ending (A : Type) : Type :=
| Done (a : A)
| Unhandled (e : exn).

Arguments Done {A} a.
Arguments Unhandled {A} e.

Section Pool.

(** The pool: some state behind [execute]. *)
Context {conn : Type}.
Variable execute : conn → string → list value → outcome * conn.
Variable clock : string.

(** The ending, the state of the store afterwards and what went to
    [console.error], oldest line first. *)
Fixpoint run {A : Type} (p : prog A) (s : conn)
  : ending A * conn * list (string * exn) :=
  match p with
  | Ret a => (Done a, s, [])
  | Throw x => (Unhandled x, s, [])
  | ConsoleError tag x k =>
      let '(r, s', out) := run k s in (r, s', (tag, x) :: out)
  | Clock k => run (k clock) s
  | Execute sql vs k =>
      let '(o, s') := execute s sql vs in run (k o) s'
  end.

End Pool.

(** [issues p sql vs]: some execution of [p] calls
    [pool.execute(sql, vs)]. *)
Inductive issues {A : Type} : prog A → string → list value → Prop :=
| issues_now sql vs k : issues (Execute sql vs k) sql vs
| issues_later sql vs k o sql' vs' :
    issues (k o) sql' vs' → issues (Execute sql vs k) sql' vs'
| issues_logged tag x k sql vs :
    issues k sql vs → issues (ConsoleError tag x k) sql vs
| issues_timed k t sql vs :
    issues (k t) sql vs → issues (Clock k) sql vs.

End Run.

Import Run.

(** ** Reference collaborators

    Executable stand-ins for the parts the service is configured with: the
    [cors] package with its default options, a body parser whose work is
    done, a segment-wise path matcher and an in-memory card table.  The
    general statements below quantify over the collaborators; these
    instances are where they are run. *)

Module Reference.

(** [cors()] with default options: every OPTIONS request is taken as a
    preflight and answered at once with 204 and no payload; any other
    request goes on. *)
Definition cors_default : middleware :=
  λ req,
    if String.eqb (method req) "OPTIONS" then Ended (send_empty 204)
    else Next (req_body req).

(** A body parser that found [req_body] already parsed. *)
Definition json_parsed : middleware := λ req, Next (req_body req).

Fixpoint has_slash (s : string) : bool :=
  match s with
  | EmptyString => false
  | String c rest => Ascii.eqb c "/" || has_slash rest
  end.

(** A matcher for the two shapes of pattern the service registers: a fixed
    path, or a fixed prefix followed by one [:id] segment. *)
Definition segment_match : matcher :=
  λ m pattern req,
    let path := originalUrl req in
    let n := String.length pattern in
    if negb (String.eqb m (method req)) then None
    else if String.eqb (String.substring (n - 3) 3 pattern) ":id" then
      let pre := String.substring 0 (n - 3) pattern in
      let seg := String.substring (String.length pre)
                   (String.length path - String.length pre) path in
      if String.prefix pre path && negb (String.eqb seg "") && negb (has_slash seg)
      then Some [("id", seg)] else None
    else if String.eqb pattern path then Some [] else None.

(** *** An in-memory card table *)

Record card : Type := Card { card_id : Z; card_name : value; card_pic : value }.

Record table : Type := Table { next_id : Z; rows : list card }.

Definition row_object (c : card) : value :=
  Obj [("id", Num (card_id c)); ("card_name", card_name c); ("card_pic", card_pic c)].

Fixpoint digits (s : string) (acc : Z) : option Z :=
  match s with
  | EmptyString => Some acc
  | String c rest =>
      match Ascii.is_nat c with
      | Some d => digits rest (10 * acc + Z.of_nat d)
      | None => None
      end
  end.

(** The row key a bound value selects, if it reads as one. *)
Definition key_of (v : value) : option Z :=
  match v with
  | Num n => Some n
  | Str EmptyString => None
  | Str s => digits s 0
  | _ => None
  end.

Definition selected (key : option Z) (c : card) : bool :=
  match key with
  | Some k => card_id c =? k
  | None => false
  end.

Definition stored (t : table) (id : value) : bool :=
  existsb (selected (key_of id)) (rows t).

Definition header (affected insert_id : Z) : value :=
  Obj [("affectedRows", Num affected); ("insertId", Num insert_id)].

Definition count (f : card → bool) (l : list card) : Z :=
  Z.of_nat (length (List.filter f l)).

(** The table behind the four statements of an environment [e]; any other
    text or arity is refused. *)
Definition table_execute (e : env) (t : table) (sql : string) (vs : list value)
  : outcome * table :=
  if String.eqb sql (select_sql e) then
    (Resolved (Arr (row_object <$> rows t)), t)
  else if String.eqb sql (insert_sql e) then
    match vs with
    | [name; pic] =>
        (Resolved (header 1 (next_id t)),
         Table (next_id t + 1) (rows t ++ [Card (next_id t) name pic]))
    | _ => (Rejected (StoreError "ER_WRONG_ARGUMENTS"), t)
    end
  else if String.eqb sql (update_sql e) then
    match vs with
    | [name; pic; id] =>
        let hit := selected (key_of id) in
        (Resolved (header (count hit (rows t)) 0),
         Table (next_id t)
           ((λ c, if hit c then Card (card_id c) name pic else c) <$> rows t))
    | _ => (Rejected (StoreError "ER_WRONG_ARGUMENTS"), t)
    end
  else if String.eqb sql (delete_sql e) then
    match vs with
    | [id] =>
        let hit := selected (key_of id) in
        (Resolved (header (count hit (rows t)) 0),
         Table (next_id t) (List.filter (λ c, negb (hit c)) (rows t)))
    | _ => (Rejected (StoreError "ER_WRONG_ARGUMENTS"), t)
    end
  else (Rejected (StoreError "ER_PARSE_ERROR"), t).

(** A pool whose server is unreachable. *)
Definition down (detail : string) (t : table) (sql : string) (vs : list value)
  : outcome * table :=
  (Rejected (StoreError detail), t).

Definition empty_table : table := Table 1 [].

Definition ace_table : table := Table 2 [Card 1 (Str "Ace") (Str "ace.png")].

End Reference.

Import Reference.

(** ** Vocabulary of the specification *)

Module Spec.

Definition chars (s : string) : list ascii := list_ascii_of_string s.

(** "Word characters only (letters, digits, underscore)". *)
Definition word_alphabet : string :=
  "abcdefghijklmnopqrstuvwxyzABCDEFGHIJKLMNOPQRSTUVWXYZ0123456789_".

Definition WordOnly (s : string) : Prop :=
  s ≠ "" ∧ ∀ c, c ∈ chars s → c ∈ chars word_alphabet.

(** The characters a qualified table name is made of: word characters,
    the back quote and the dot. *)
Definition identifier_char (c : ascii) : Prop :=
  c ∈ chars word_alphabet ∨ c = "`"%char ∨ c = "."%char.

(** [needle] occurs in [hay]. *)
Definition occurs_in (needle hay : string) : Prop :=
  ∃ pre post, hay = pre +:+ needle +:+ post.

(** The store reports [n] rows affected. *)
Definition reports (result : value) (n : Z) : Prop :=
  get result "affectedRows" = inr (Num n).

(** A store on which [DELETE ... WHERE id = ?] does what it says, for the
    statement text of environment [e] and a view [has] of the ids that
    have a row: deleting an id that has a row succeeds, reports at least
    one row and leaves the id without a row; deleting an id that has none
    succeeds and reports zero rows. *)
Record removes_rows {conn : Type}
    (execute : conn → string → list value → outcome * conn)
    (e : env) (has : conn → value → bool) : Prop := RemovesRows {
  delete_hit : ∀ s id, has s id = true →
    ∃ result n s', execute s (delete_sql e) [id] = (Resolved result, s')
                   ∧ reports result n ∧ n ≠ 0 ∧ has s' id = false;
  delete_miss : ∀ s id, has s id = false →
    ∃ result s', execute s (delete_sql e) [id] = (Resolved result, s')
                 ∧ reports result 0
}.

End Spec.

Import Spec.

(** ** Measures on statements and programs *)

Module Measure.

(** The number of [?] placeholders in a statement text. *)
Fixpoint placeholders (s : string) : nat :=
  match s with
  | EmptyString => 0%nat
  | String c rest => ((if Ascii.eqb c "?" then 1 else 0) + placeholders rest)%nat
  end.

(** A program that never calls [pool.execute], whatever the clock says. *)
Inductive quiet {A : Type} : prog A → Prop :=
| quiet_ret a : quiet (Ret a)
| quiet_throw x : quiet (Throw x)
| quiet_log tag x k : quiet k → quiet (ConsoleError tag x k)
| quiet_clock k : (∀ t, quiet (k t)) → quiet (Clock k).

(** A program that calls [pool.execute] once at most, whatever the clock
    says and however the call settles. *)
Inductive at_most_one {A : Type} : prog A → Prop :=
| one_none p : quiet p → at_most_one p
| one_log tag x k : at_most_one k → at_most_one (ConsoleError tag x k)
| one_clock k : (∀ t, at_most_one (k t)) → at_most_one (Clock k)
| one_execute sql vs k : (∀ o, quiet (k o)) → at_most_one (Execute sql vs k).

(** The status codes each operation can answer with. *)
Definition allowed_status (op : operation) : list Z :=
  match op with
  | ListAll => [200; 500]
  | Create => [201; 400; 500]
  | Update => [200; 400; 404; 500]
  | Delete => [204; 400; 404; 500]
  end.

End Measure.

Import Measure.

(** * Properties *)

(** ** Helper lemmas: strings and the word pattern *)

Lemma chars_app (s t : string) : chars (s +:+ t) = (chars s ++ chars t)%list.
Proof. induction s as [|c s IH]; simpl; [done|]. unfold chars in *. simpl. by rewrite IH. Qed.

Lemma append_assoc (s t u : string) : (s +:+ t) +:+ u = s +:+ t +:+ u.
Proof.
  induction s as [|c s IH]; [done|].
  change (String c ((s +:+ t) +:+ u) = String c (s +:+ t +:+ u)). by rewrite IH.
Qed.

Lemma word_char_alphabet (c : ascii) :
  word_char c = bool_decide (c ∈ chars word_alphabet).
Proof. destruct c as [[] [] [] [] [] [] [] []]; vm_compute; reflexivity. Qed.

Lemma all_word_spec (s : string) :
  all_word s = true ↔ ∀ c, c ∈ chars s → c ∈ chars word_alphabet.
Proof.
  induction s as [|a s IH]; simpl.
  - split; [|done]. intros _ c Hc. unfold chars in Hc. simpl in Hc. by apply elem_of_nil in Hc.
  - rewrite andb_true_iff, IH, word_char_alphabet, bool_decide_eq_true.
    unfold chars; simpl. split.
    + intros [Ha Hs] c Hc. apply elem_of_cons in Hc as [->|Hc]; auto.
    + intros H. split; [apply H; left|intros c Hc; apply H; by right].
Qed.

Lemma word_only_spec (s : string) : word_only s = true ↔ WordOnly s.
Proof.
  unfold WordOnly. destruct s as [|a s].
  - simpl. split; [done|]. by intros [? _].
  - unfold word_only. rewrite all_word_spec. split; [by split|by intros [_ ?]].
Qed.

Lemma word_only_false (s : string) : word_only s = false ↔ ¬ WordOnly s.
Proof. rewrite <- word_only_spec. by destruct (word_only s). Qed.

(** ** Helper lemmas: the qualified table name *)

Lemma CARDS_TABLE_configured (e : env) (t : string) :
  e !! "CARDS_TABLE" = Some t →
  CARDS_TABLE e = if String.eqb t "" then "cards" else t.
Proof.
  intros H. unfold CARDS_TABLE, env_get, or_else. rewrite H. simpl.
  by destruct (String.eqb t "").
Qed.

Lemma CARDS_TABLE_default (e : env) :
  e !! "CARDS_TABLE" = None → CARDS_TABLE e = "cards".
Proof. intros H. unfold CARDS_TABLE, env_get. by rewrite H. Qed.

Lemma safeTable_word (e : env) (t : string) :
  e !! "CARDS_TABLE" = Some t → WordOnly t → safeTable e = "`" +:+ t +:+ "`".
Proof.
  intros H Hw. unfold safeTable. rewrite (CARDS_TABLE_configured e t H).
  destruct (String.eqb_spec t "") as [->|_]; [by destruct Hw|].
  apply word_only_spec in Hw. by rewrite Hw.
Qed.

Lemma safeTable_fallback (e : env) (t : string) :
  e !! "CARDS_TABLE" = Some t → ¬ WordOnly t → safeTable e = "`cards`".
Proof.
  intros H Hw. unfold safeTable. rewrite (CARDS_TABLE_configured e t H).
  destruct (String.eqb_spec t "") as [->|_]; [reflexivity|].
  apply word_only_false in Hw. by rewrite Hw.
Qed.

Lemma safeTable_unset (e : env) :
  e !! "CARDS_TABLE" = None → safeTable e = "`cards`".
Proof. intros H. unfold safeTable. by rewrite (CARDS_TABLE_default e H). Qed.

Lemma safeDb_word (e : env) (d : string) :
  e !! "DB_NAME" = Some d → WordOnly d → safeDb e = "`" +:+ d +:+ "`.".
Proof.
  intros H Hw. unfold safeDb, env_get. rewrite H. simpl.
  destruct (String.eqb_spec d "") as [->|_]; [by destruct Hw|].
  apply word_only_spec in Hw. by rewrite Hw.
Qed.

Lemma safeDb_omitted (e : env) (d : string) :
  e !! "DB_NAME" = Some d → ¬ WordOnly d → safeDb e = "".
Proof.
  intros H Hw. unfold safeDb, env_get. rewrite H.
  apply word_only_false in Hw. rewrite Hw. by rewrite andb_false_r.
Qed.

Lemma safeDb_unset (e : env) : e !! "DB_NAME" = None → safeDb e = "".
Proof. intros H. unfold safeDb, env_get. by rewrite H. Qed.

(** Dropping one variable does not change what is read from another. *)
Lemma safeDb_delete_table (e : env) : safeDb (delete "CARDS_TABLE" e) = safeDb e.
Proof. unfold safeDb, env_get. by rewrite lookup_delete_ne. Qed.

Lemma safeTable_delete_db (e : env) : safeTable (delete "DB_NAME" e) = safeTable e.
Proof. unfold safeTable, CARDS_TABLE, env_get. by rewrite lookup_delete_ne. Qed.

Lemma statement_by_fqtn (op : operation) (e e' : env) :
  fqtn e = fqtn e' → statement_of op e = statement_of op e'.
Proof.
  intros H. destruct op; simpl;
    unfold select_sql, insert_sql, update_sql, delete_sql; by rewrite H.
Qed.

Lemma word_is_identifier (s : string) (c : ascii) :
  word_only s = true → c ∈ chars s → identifier_char c.
Proof. intros Hw Hc. left. apply word_only_spec in Hw as [_ Hw]. by apply Hw. Qed.

Lemma quoted_identifier (s : string) (c : ascii) :
  word_only s = true → c ∈ chars ("`" +:+ s +:+ "`") → identifier_char c.
Proof.
  intros Hw. rewrite !chars_app, !elem_of_app. intros [Hc|[Hc|Hc]].
  - right; left. by apply list_elem_of_singleton in Hc.
  - by eapply word_is_identifier.
  - right; left. by apply list_elem_of_singleton in Hc.
Qed.

Lemma safeTable_identifier (e : env) (c : ascii) :
  c ∈ chars (safeTable e) → identifier_char c.
Proof.
  unfold safeTable. destruct (word_only (CARDS_TABLE e)) eqn:Hw.
  - by apply quoted_identifier.
  - by apply (quoted_identifier "cards").
Qed.

Lemma safeDb_identifier (e : env) (c : ascii) :
  c ∈ chars (safeDb e) → identifier_char c.
Proof.
  unfold safeDb. destruct (env_get e "DB_NAME") as [| | | |db| |];
    try (intros Hc; by apply elem_of_nil in Hc).
  destruct (truthy (Str db) && word_only db) eqn:Hw;
    [|intros Hc; by apply elem_of_nil in Hc].
  apply andb_true_iff in Hw as [_ Hw].
  rewrite !chars_app, !elem_of_app. intros [Hc|[Hc|Hc]].
  - right; left. by apply list_elem_of_singleton in Hc.
  - by eapply word_is_identifier.
  - unfold chars in Hc; simpl in Hc.
    apply elem_of_cons in Hc as [->|Hc]; [by right; left|].
    right; right. by apply list_elem_of_singleton in Hc.
Qed.

Lemma fqtn_identifier (e : env) (c : ascii) :
  c ∈ chars (fqtn e) → identifier_char c.
Proof.
  unfold fqtn. rewrite chars_app, elem_of_app.
  intros [Hc|Hc]; eauto using safeDb_identifier, safeTable_identifier.
Qed.

(** ** C2: only word-character names reach the SQL text *)

(** C2.  Let [t] be the configured table name.  If [t] consists of word
    characters only, the qualified table name is the optional database
    prefix followed by [t] between back quotes, so [t] occurs in it.  If [t]
    fails the pattern, the qualified name is the prefix followed by the
    default [`cards`], and every statement text is the one the service
    builds with no table name configured: the rejected value is not
    interpolated.  The database name is treated the same way: a name of word
    characters is quoted in front, a name that fails the pattern is left
    out and the texts are those of a service with no database name.  In
    every case the qualified name consists of word characters, back quotes
    and dots only. *)
Theorem fqtn_interpolates_only_word_names (e : env) (t : string) :
  e !! "CARDS_TABLE" = Some t →
  (WordOnly t →
     fqtn e = safeDb e +:+ "`" +:+ t +:+ "`" ∧ occurs_in t (fqtn e))
  ∧ (¬ WordOnly t →
       fqtn e = safeDb e +:+ "`cards`"
       ∧ ∀ op, statement_of op e = statement_of op (delete "CARDS_TABLE" e))
  ∧ (∀ d, e !! "DB_NAME" = Some d →
       (WordOnly d →
          fqtn e = "`" +:+ d +:+ "`." +:+ safeTable e ∧ occurs_in d (fqtn e))
       ∧ (¬ WordOnly d →
            fqtn e = safeTable e
            ∧ ∀ op, statement_of op e = statement_of op (delete "DB_NAME" e)))
  ∧ (∀ c, c ∈ chars (fqtn e) → identifier_char c).
Proof.
  intros Ht. split; [|split; [|split]].
  - intros Hw. split; unfold fqtn; rewrite (safeTable_word e t Ht Hw); [done|].
    exists (safeDb e +:+ "`"), "`". by rewrite append_assoc.
  - intros Hw. split.
    + unfold fqtn. by rewrite (safeTable_fallback e t Ht Hw).
    + intros op. apply statement_by_fqtn. unfold fqtn.
      rewrite safeDb_delete_table, (safeTable_fallback e t Ht Hw).
      rewrite safeTable_unset; [done|]. apply lookup_delete_eq.
  - intros d Hd. split; intros Hw.
    + split; unfold fqtn; rewrite (safeDb_word e d Hd Hw).
      * by rewrite !append_assoc.
      * exists "`", ("`." +:+ safeTable e). by rewrite !append_assoc.
    + split.
      * unfold fqtn. by rewrite (safeDb_omitted e d Hd Hw).
      * intros op. apply statement_by_fqtn. unfold fqtn.
        rewrite safeTable_delete_db, (safeDb_omitted e d Hd Hw).
        rewrite safeDb_unset; [done|]. apply lookup_delete_eq.
  - apply fqtn_identifier.
Qed.

Lemma fqtn_interpolates_only_word_names_witness :
  let e : env := <["CARDS_TABLE" := "cards; DROP TABLE users"]> {["DB_NAME" := "shop"]} in
  e !! "CARDS_TABLE" = Some "cards; DROP TABLE users"
  ∧ fqtn e = "`shop`.`cards`"
  ∧ select_sql e = select_sql {["DB_NAME" := "shop"]}.
Proof.
  intros e.
  destruct (fqtn_interpolates_only_word_names e "cards; DROP TABLE users" eq_refl)
    as (_ & Hbad & _).
  assert (Hn : ¬ WordOnly "cards; DROP TABLE users")
    by (apply word_only_false; reflexivity).
  destruct (Hbad Hn) as [Hq Hsame].
  split; [reflexivity|]. split; [exact Hq|]. exact (Hsame ListAll).
Defined.

(** ** Helper lemmas: reading the request *)

Lemma field_or_else (b : value) (k : string) :
  field (or_else b (Obj [])) k = field b k.
Proof.
  unfold or_else. destruct b as [| |[]|n|s| |]; simpl; try done.
  - by destruct (n =? 0).
  - by destruct (String.eqb s "").
Qed.

(** Destructuring [req.body || {}] never throws. *)
Lemma read_or_else (b : value) (k : string) :
  read (or_else b (Obj [])) k = Ret (field b k).
Proof.
  rewrite <- field_or_else. unfold or_else, read.
  destruct b as [| |[]|n|s| |]; simpl; try done.
  - by destruct (n =? 0).
  - by destruct (String.eqb s "").
Qed.

Lemma read_params (req : request) (k : string) :
  read (params_object req) k = Ret (field (params_object req) k).
Proof. done. Qed.

(** Route parameters are strings: a parameter is a string or is absent. *)
Lemma field_params (req : request) (k : string) :
  field (params_object req) k = Undefined ∨ ∃ s, field (params_object req) k = Str s.
Proof.
  unfold params_object. simpl. induction (params req) as [|[k' v] ps IH]; simpl.
  - by left.
  - destruct (String.eqb k k'); [right; by exists v|done].
Qed.

(** Unfolding the monadic notation. *)
Ltac prog_simpl :=
  repeat (unfold mbind, mret, prog_bind, prog_ret, await_execute, read, interpolate; simpl).
Ltac prog_simpl_in H :=
  repeat (unfold mbind, mret, prog_bind, prog_ret, await_execute, read, interpolate in H;
          simpl in H).

(** A program that has returned, thrown or only logs issues no statement. *)
Ltac no_issue :=
  repeat match goal with
    | H : issues (Ret _) _ _ |- _ => inversion H
    | H : issues (Throw _) _ _ |- _ => inversion H
    | H : issues (ConsoleError _ _ _) _ _ |- _ => inversion H; subst; clear H
    | H : issues ?p _ _ |- _ =>
        match p with
        | context [match ?x with _ => _ end] => destruct x eqn:?; prog_simpl_in H
        end
    end.

(** ** C1: statement texts do not depend on the request *)

Lemma issues_handler (e : env) (op : operation) (req : request)
    (sql : string) (vs : list value) :
  issues (handler_of op e req) sql vs →
  sql = statement_of op e ∧ vs = bound_values op req.
Proof.
  destruct op; simpl; intros H.
  - unfold allcards in H. prog_simpl_in H.
    inversion H; subst; clear H; [done|]. no_issue.
  - unfold addcard in H. rewrite !read_or_else in H. prog_simpl_in H.
    destruct (falsy (field (req_body req) "card_name")
              || falsy (field (req_body req) "card_pic")); [inversion H|].
    prog_simpl_in H. inversion H; subst; clear H; [done|]. no_issue.
  - unfold updatecard in H. rewrite !read_or_else in H. prog_simpl_in H.
    destruct (falsy (field (req_body req) "id")); [inversion H|].
    destruct (falsy (field (req_body req) "card_name")
              || falsy (field (req_body req) "card_pic")); [inversion H|].
    prog_simpl_in H. inversion H; subst; clear H; [done|]. no_issue.
  - unfold deletecard in H. prog_simpl_in H.
    destruct (falsy _); [inversion H|].
    prog_simpl_in H. inversion H; subst; clear H; [done|]. no_issue.
Qed.

(** C1.  Take Create, Update or Delete (or List, which binds nothing) and
    any two requests whatever: they may differ in [card_name], [card_pic],
    [id] or anything else.  Every statement text either run of the handler
    passes to [pool.execute] is the same string, the one fixed by the
    operation and the environment alone; and the list bound to it is exactly
    the list of the user-supplied values of that request.  The values
    therefore travel as bound parameters only. *)
Theorem sql_text_independent_of_user_values
    (e : env) (op : operation) (req1 req2 : request)
    (sql1 sql2 : string) (vs1 vs2 : list value) :
  issues (handler_of op e req1) sql1 vs1 →
  issues (handler_of op e req2) sql2 vs2 →
  sql1 = sql2
  ∧ sql1 = statement_of op e
  ∧ vs1 = bound_values op req1
  ∧ vs2 = bound_values op req2.
Proof.
  intros H1 H2.
  apply issues_handler in H1 as [-> ->].
  apply issues_handler in H2 as [-> ->]. done.
Qed.

Lemma sql_text_independent_of_user_values_witness :
  let req1 := Request "POST" "/addcard"
                (Obj [("card_name", Str "Ace"); ("card_pic", Str "ace.png")]) [] in
  let req2 := Request "POST" "/addcard"
                (Obj [("card_name", Str "x'); DROP TABLE cards; --");
                      ("card_pic", Str "y")]) [] in
  insert_sql ∅ = insert_sql ∅
  ∧ insert_sql ∅ = "INSERT INTO `cards` (card_name, card_pic) VALUES (?, ?)"
  ∧ [Str "Ace"; Str "ace.png"] = bound_values Create req1
  ∧ [Str "x'); DROP TABLE cards; --"; Str "y"] = bound_values Create req2.
Proof.
  intros req1 req2.
  refine (sql_text_independent_of_user_values ∅ Create req1 req2
            (insert_sql ∅) (insert_sql ∅)
            [Str "Ace"; Str "ace.png"]
            [Str "x'); DROP TABLE cards; --"; Str "y"] _ _).
  - apply issues_now.
  - apply issues_now.
Defined.

(** ** C5: Create validates before it touches the store *)

(** C5.  If the [card_name] or the [card_pic] of a Create request is missing
    or falsy, the handler is the program that answers 400 with the message
    "card_name and card_pic are required" and does nothing else: it issues
    no statement, and run against any store it leaves the store as it was
    and logs nothing. *)
Theorem addcard_rejects_missing_fields (e : env) (req : request) :
  falsy (field (req_body req) "card_name") = true
  ∨ falsy (field (req_body req) "card_pic") = true →
  addcard e req = Ret (json 400 (message "card_name and card_pic are required"))
  ∧ (∀ sql vs, ¬ issues (addcard e req) sql vs)
  ∧ (∀ (conn : Type) (execute : conn → string → list value → outcome * conn)
       (clock : string) (s : conn),
       run execute clock (addcard e req) s
       = (Done (json 400 (message "card_name and card_pic are required")), s, [])).
Proof.
  intros H.
  assert (Hret : addcard e req
                 = Ret (json 400 (message "card_name and card_pic are required"))).
  { unfold addcard. rewrite !read_or_else. prog_simpl.
    apply orb_true_iff in H. by rewrite H. }
  rewrite Hret. split; [done|]. split; [|done].
  intros sql vs Hi. inversion Hi.
Qed.

Lemma addcard_rejects_missing_fields_witness :
  let req := Request "POST" "/addcard" (Obj [("card_pic", Str "x")]) [] in
  run (table_execute ∅) "2026-01-01T00:00:00.000Z" (addcard ∅ req) ace_table
  = (Done (json 400 (message "card_name and card_pic are required")), ace_table, []).
Proof.
  intros req.
  apply (addcard_rejects_missing_fields ∅ req). left. reflexivity.
Defined.

(** ** C6, C9, C10: what Update and Create check, and in which order *)

Lemma updatecard_without_id (e : env) (req : request) :
  falsy (field (req_body req) "id") = true →
  updatecard e req = Ret (json 400 (message "id is required")).
Proof.
  intros H. unfold updatecard. rewrite !read_or_else. prog_simpl. by rewrite H.
Qed.

Lemma updatecard_without_content (e : env) (req : request) :
  falsy (field (req_body req) "id") = false →
  falsy (field (req_body req) "card_name") || falsy (field (req_body req) "card_pic") = true →
  updatecard e req = Ret (json 400 (message "card_name and card_pic are required")).
Proof.
  intros Hid H. unfold updatecard. rewrite !read_or_else. prog_simpl.
  by rewrite Hid, H.
Qed.

(** C6.  Update checks [id] first: when [id] is absent or falsy the handler
    is the program that answers 400 "id is required", whatever the other
    fields are.  Only when [id] passes are [card_name] and [card_pic]
    checked, together: if either is absent or falsy the handler is the
    program that answers 400 "card_name and card_pic are required".  Both
    programs return at once, so no statement is issued before the checks;
    and a request that lacks both [id] and [card_pic] gets the message about
    [id]. *)
Theorem updatecard_validation_order (e : env) (req : request) :
  (falsy (field (req_body req) "id") = true →
     updatecard e req = Ret (json 400 (message "id is required")))
  ∧ (falsy (field (req_body req) "id") = false →
     falsy (field (req_body req) "card_name") = true
     ∨ falsy (field (req_body req) "card_pic") = true →
     updatecard e req = Ret (json 400 (message "card_name and card_pic are required")))
  ∧ (field (req_body req) "id" = Undefined →
     field (req_body req) "card_pic" = Undefined →
     updatecard e req = Ret (json 400 (message "id is required")))
  ∧ (falsy (field (req_body req) "id") = true
     ∨ falsy (field (req_body req) "card_name") = true
     ∨ falsy (field (req_body req) "card_pic") = true →
     ∀ sql vs, ¬ issues (updatecard e req) sql vs).
Proof.
  split; [apply updatecard_without_id|].
  split; [intros Hid H; apply updatecard_without_content; [done|by apply orb_true_iff]|].
  split; [intros Hid _; apply updatecard_without_id; by rewrite Hid|].
  intros H sql vs Hi.
  destruct (falsy (field (req_body req) "id")) eqn:Hid.
  - rewrite updatecard_without_id in Hi by done. inversion Hi.
  - rewrite updatecard_without_content in Hi; [inversion Hi|done|].
    destruct H as [H|H]; [done|]. by apply orb_true_iff.
Qed.

Lemma updatecard_validation_order_witness :
  let no_id := Request "PUT" "/updatecard" (Obj [("card_name", Str "Ace2")]) [] in
  let no_pic := Request "PUT" "/updatecard"
                  (Obj [("id", Num 1); ("card_name", Str "Ace2")]) [] in
  updatecard ∅ no_id = Ret (json 400 (message "id is required"))
  ∧ updatecard ∅ no_pic = Ret (json 400 (message "card_name and card_pic are required")).
Proof.
  intros no_id no_pic. split.
  - apply (proj1 (proj2 (proj2 (updatecard_validation_order ∅ no_id))));
      reflexivity.
  - apply (proj1 (proj2 (updatecard_validation_order ∅ no_pic)));
      [reflexivity|right; reflexivity].
Defined.

(** C9.  An Update body that holds an [id] property whose value is the
    number 0, the empty string, [null] or [false] is answered with 400 and
    the message "id is required": the check is on the truthiness of the
    value, not on the presence of the key. *)
Theorem updatecard_rejects_falsy_id
    (e : env) (req : request) (props : list (string * value)) (v : value) :
  req_body req = Obj props →
  own "id" props = Some v →
  v ∈ [Num 0; Str ""; Null; Bool false] →
  updatecard e req = Ret (json 400 (message "id is required")).
Proof.
  intros Hb Hid Hv. apply updatecard_without_id.
  rewrite Hb. simpl. rewrite Hid. simpl.
  repeat (apply elem_of_cons in Hv as [->|Hv]; [done|]).
  by apply elem_of_nil in Hv.
Qed.

Lemma updatecard_rejects_falsy_id_witness :
  updatecard ∅
    (Request "PUT" "/updatecard"
       (Obj [("id", Num 0); ("card_name", Str "Ace2"); ("card_pic", Str "ace2.png")]) [])
  = Ret (json 400 (message "id is required")).
Proof.
  eapply (updatecard_rejects_falsy_id ∅ _ _ (Num 0)).
  - reflexivity.
  - reflexivity.
  - apply list_elem_of_here.
Defined.

(** C10.  When [req.body] is [undefined], [req.body || {}] is the empty
    object, reading a field of it returns [undefined] without throwing, and
    both Create and Update are the programs that answer with their ordinary
    400: "card_name and card_pic are required" for Create, "id is required"
    for Update.  Neither throws, and neither reaches the store. *)
Theorem undefined_body_is_rejected_with_400
    (e : env) (m url : string) (ps : list (string * string)) (k : string) :
  or_else Undefined (Obj []) = Obj []
  ∧ read (or_else Undefined (Obj [])) k = Ret Undefined
  ∧ addcard e (Request m url Undefined ps)
    = Ret (json 400 (message "card_name and card_pic are required"))
  ∧ updatecard e (Request m url Undefined ps)
    = Ret (json 400 (message "id is required")).
Proof. done. Qed.

(** ** Helper lemmas: one run of each store-facing handler *)

Section Runs.

Context {conn : Type}.
Variable execute : conn → string → list value → outcome * conn.
Variable clock : string.
Variable e : env.

Lemma falsy_nonempty (s : string) : s ≠ "" → falsy (Str s) = false.
Proof. intros H. unfold falsy. simpl. by destruct (String.eqb_spec s ""). Qed.

Lemma run_allcards (req : request) (s : conn) :
  run execute clock (allcards e req) s =
  match execute s (select_sql e) [] with
  | (Resolved rows, s') => (Done (json 200 rows), s', [])
  | (Rejected x, s') =>
      (Done (json 500 (message "Server error for allcards")), s',
       [("[allcards] error:", x)])
  end.
Proof.
  unfold allcards. prog_simpl.
  by destruct (execute s (select_sql e) []) as [[result|x] s'].
Qed.

Lemma run_deletecard (req : request) (id : string) (s : conn) :
  field (params_object req) "id" = Str id → id ≠ "" →
  run execute clock (deletecard e req) s =
  match execute s (delete_sql e) [Str id] with
  | (Resolved result, s') =>
      match get result "affectedRows" with
      | inr rows =>
          (Done (if strict_eq_num rows 0
                 then json 404 (message ("No card found with id " +:+ id))
                 else send_empty 204), s', [])
      | inl x =>
          (Done (json 500 (message "Server error - could not delete card")), s',
           [("[deletecard] error:", x)])
      end
  | (Rejected x, s') =>
      (Done (json 500 (message "Server error - could not delete card")), s',
       [("[deletecard] error:", x)])
  end.
Proof.
  intros Hid Hne. unfold deletecard. rewrite read_params, Hid. prog_simpl.
  rewrite (falsy_nonempty id Hne). prog_simpl.
  destruct (execute s (delete_sql e) [Str id]) as [[result|x] s']; prog_simpl; [|done].
  destruct (get result "affectedRows") as [x|rows]; prog_simpl; [done|].
  by destruct (strict_eq_num rows 0).
Qed.

Lemma run_updatecard (req : request) (s : conn) :
  let id := field (req_body req) "id" in
  let card_name := field (req_body req) "card_name" in
  let card_pic := field (req_body req) "card_pic" in
  falsy id = false → falsy card_name = false → falsy card_pic = false →
  run execute clock (updatecard e req) s =
  match execute s (update_sql e) [card_name; card_pic; id] with
  | (Resolved result, s') =>
      match get result "affectedRows" with
      | inr rows =>
          if strict_eq_num rows 0 then
            match to_string id with
            | Some shown =>
                (Done (json 404 (message ("No card found with id " +:+ shown))), s', [])
            | None =>
                (Done (json 500 (message "Server error - could not update card")), s',
                 [("[updatecard] error:", TypeError)])
            end
          else
            (Done (json 200 (Obj [("message", Str "Card updated"); ("id", id);
                                  ("card_name", card_name); ("card_pic", card_pic)])),
             s', [])
      | inl x =>
          (Done (json 500 (message "Server error - could not update card")), s',
           [("[updatecard] error:", x)])
      end
  | (Rejected x, s') =>
      (Done (json 500 (message "Server error - could not update card")), s',
       [("[updatecard] error:", x)])
  end.
Proof.
  intros id card_name card_pic Hid Hn Hp. unfold updatecard.
  rewrite !read_or_else. fold id card_name card_pic. prog_simpl.
  rewrite Hid, Hn, Hp. prog_simpl.
  destruct (execute s (update_sql e) [card_name; card_pic; id]) as [[result|x] s'];
    prog_simpl; [|done].
  destruct (get result "affectedRows") as [x|rows]; prog_simpl; [done|].
  destruct (strict_eq_num rows 0); prog_simpl; [|done].
  by destruct (to_string id).
Qed.


End Runs.

(** ** Helper lemmas: the reference table *)

Lemma count_existsb (f : card → bool) (l : list card) :
  existsb f l = true → count f l ≠ 0.
Proof.
  unfold count. induction l as [|c l IH]; simpl; [done|].
  destruct (f c); simpl; [lia|auto].
Qed.

Lemma count_not_existsb (f : card → bool) (l : list card) :
  existsb f l = false → count f l = 0.
Proof.
  unfold count. induction l as [|c l IH]; simpl; [done|].
  destruct (f c); simpl; [done|auto].
Qed.

Lemma existsb_filter_out (f : card → bool) (l : list card) :
  existsb f (List.filter (λ c, negb (f c)) l) = false.
Proof.
  induction l as [|c l IH]; simpl; [done|].
  destruct (f c) eqn:Hc; simpl; [done|]. by rewrite Hc.
Qed.

Lemma table_execute_delete (e : env) (t : table) (id : value) :
  table_execute e t (delete_sql e) [id]
  = (Resolved (header (count (selected (key_of id)) (rows t)) 0),
     Table (next_id t) (List.filter (λ c, negb (selected (key_of id) c)) (rows t))).
Proof.
  unfold table_execute.
  replace (String.eqb (delete_sql e) (select_sql e)) with false by reflexivity.
  replace (String.eqb (delete_sql e) (insert_sql e)) with false by reflexivity.
  replace (String.eqb (delete_sql e) (update_sql e)) with false by reflexivity.
  by rewrite String.eqb_refl.
Qed.

Lemma table_removes_rows (e : env) : removes_rows (table_execute e) e stored.
Proof.
  split; intros t id H.
  - eexists _, _, _. rewrite table_execute_delete. split; [done|].
    split; [done|]. split.
    + by apply count_existsb.
    + apply existsb_filter_out.
  - eexists _, _. rewrite table_execute_delete. split; [done|].
    unfold reports, header. simpl. unfold stored in H.
    by rewrite (count_not_existsb _ _ H).
Qed.

(** ** C4: Delete *)

(** C4.  Take a Delete request whose [id] parameter is present, that is, a
    non-empty string.  Against any store: if the statement resolves and the
    result reports zero rows affected, the response is 404; if it resolves
    with any other count, the response is 204 with no payload.  Hence, on a
    store where deleting by id removes the row, deleting an id that has a
    row answers 204, and deleting the same id again answers 404. *)
Theorem deletecard_status_by_rows_affected
    (e : env) (req : request) (id : string) :
  field (params_object req) "id" = Str id →
  id ≠ "" →
  (∀ (conn : Type) (execute : conn → string → list value → outcome * conn)
     (clock : string) (s s' : conn) (result rows : value),
     execute s (delete_sql e) [Str id] = (Resolved result, s') →
     get result "affectedRows" = inr rows →
     run execute clock (deletecard e req) s
     = (Done (if strict_eq_num rows 0
              then json 404 (message ("No card found with id " +:+ id))
              else send_empty 204), s', []))
  ∧ (∀ (conn : Type) (execute : conn → string → list value → outcome * conn)
       (has : conn → value → bool) (clock : string) (s : conn),
       removes_rows execute e has →
       has s (Str id) = true →
       ∃ s1 s2,
         run execute clock (deletecard e req) s = (Done (send_empty 204), s1, [])
         ∧ run execute clock (deletecard e req) s1
           = (Done (json 404 (message ("No card found with id " +:+ id))), s2, [])).
Proof.
  intros Hid Hne. split.
  - intros conn execute clock s s' result rows Hx Hrows.
    rewrite (run_deletecard execute clock e req id s Hid Hne). by rewrite Hx, Hrows.
  - intros conn execute has clock s [Hhit Hmiss] Hhas.
    destruct (Hhit s (Str id) Hhas) as (r1 & n & s1 & Hx1 & Hr1 & Hn & Hgone).
    destruct (Hmiss s1 (Str id) Hgone) as (r2 & s2 & Hx2 & Hr2).
    exists s1, s2. rewrite !(run_deletecard execute clock e req id _ Hid Hne).
    rewrite Hx1, Hx2. unfold reports in Hr1, Hr2. rewrite Hr1, Hr2. simpl.
    by destruct (Z.eqb_spec n 0).
Qed.

Lemma deletecard_status_by_rows_affected_witness :
  let req := Request "DELETE" "/deletecard/1" Undefined [("id", "1")] in
  ∃ s1 s2,
    run (table_execute ∅) "2026-01-01T00:00:00.000Z" (deletecard ∅ req) ace_table
    = (Done (send_empty 204), s1, [])
    ∧ run (table_execute ∅) "2026-01-01T00:00:00.000Z" (deletecard ∅ req) s1
      = (Done (json 404 (message ("No card found with id " +:+ "1"))), s2, []).
Proof.
  intros req.
  assert (Hne : "1" ≠ "") by discriminate.
  apply (proj2 (deletecard_status_by_rows_affected ∅ req "1" eq_refl Hne)
           table (table_execute ∅) stored _ ace_table (table_removes_rows ∅)).
  reflexivity.
Defined.

(** ** C3: Update *)


(** C3, at the input where the code departs from it.  The body carries
    [id = {"toString": 1}], a truthy value, and both content fields.  The
    table holds no row for it and reports zero rows affected; building the
    404 message then throws inside the [try], and the response is the 500
    of the [catch], with the TypeError on the console. *)
Theorem updatecard_unprintable_id_zero_rows_is_500 :
  let id := Obj [("toString", Num 1)] in
  let req := Request "PUT" "/updatecard"
               (Obj [("id", id); ("card_name", Str "Ace2"); ("card_pic", Str "ace2.png")])
               [] in
  falsy id = false
  ∧ table_execute ∅ ace_table (update_sql ∅) [Str "Ace2"; Str "ace2.png"; id]
    = (Resolved (header 0 0), ace_table)
  ∧ run (table_execute ∅) "2026-01-01T00:00:00.000Z" (updatecard ∅ req) ace_table
    = (Done (json 500 (message "Server error - could not update card")), ace_table,
       [("[updatecard] error:", TypeError)]).
Proof. vm_compute. done. Qed.

(** ** C7: store errors *)

(** X14.  A rejected statement is answered with 500 and a fixed message by List,
    Update and Delete; the error itself goes to the console and nowhere
    else, and the store state is the one the pool left. *)
Lemma store_error_is_500
    {conn : Type} (execute : conn → string → list value → outcome * conn)
    (clock : string) (e : env) (req : request) (s s' : conn) (x : exn) :
  (execute s (select_sql e) [] = (Rejected x, s') →
   run execute clock (allcards e req) s
   = (Done (json 500 (message "Server error for allcards")), s',
      [("[allcards] error:", x)]))
  ∧ (let id := field (req_body req) "id" in
     let card_name := field (req_body req) "card_name" in
     let card_pic := field (req_body req) "card_pic" in
     falsy id = false → falsy card_name = false → falsy card_pic = false →
     execute s (update_sql e) [card_name; card_pic; id] = (Rejected x, s') →
     run execute clock (updatecard e req) s
     = (Done (json 500 (message "Server error - could not update card")), s',
        [("[updatecard] error:", x)]))
  ∧ (∀ id, field (params_object req) "id" = Str id → id ≠ "" →
     execute s (delete_sql e) [Str id] = (Rejected x, s') →
     run execute clock (deletecard e req) s
     = (Done (json 500 (message "Server error - could not delete card")), s',
        [("[deletecard] error:", x)])).
Proof.
  split; [|split].
  - intros Hx. by rewrite run_allcards, Hx.
  - intros id card_name card_pic Hid Hn Hp Hx.
    rewrite (run_updatecard execute clock e req s Hid Hn Hp).
    fold id card_name card_pic. by rewrite Hx.
  - intros id Hid Hne Hx.
    by rewrite (run_deletecard execute clock e req id s Hid Hne), Hx.
Qed.


(** C7, at the input where the code departs from it.  The body carries
    [card_name = {"toString": 1}], a truthy value, and a [card_pic]; the
    pool rejects the statement.  The [catch] block logs the store error and
    then builds its own message from [card_name], which throws: the
    TypeError leaves the handler and no response has been sent. *)
Theorem addcard_store_error_escapes_catch :
  let req := Request "POST" "/addcard"
               (Obj [("card_name", Obj [("toString", Num 1)]); ("card_pic", Str "x")])
               [] in
  run (down "ECONNREFUSED") "2026-01-01T00:00:00.000Z" (addcard ∅ req) empty_table
  = (Unhandled TypeError, empty_table, [("[addcard] error:", StoreError "ECONNREFUSED")]).
Proof. vm_compute. done. Qed.

(** ** C8: requests that no route accepts *)

Lemma dispatch_unmatched (route_match : matcher) (req : request)
    (rs : list (string * string * handler)) :
  Forall (λ r, route_match r.1.1 r.1.2 req = None) rs →
  dispatch route_match rs req = not_found req.
Proof.
  induction 1 as [|[[m pattern] h] rs Hr _ IH]; simpl; [done|].
  simpl in Hr. by rewrite Hr.
Qed.

(** C8, as a statement about every request: it fails.  With the [cors]
    middleware in its default configuration, an OPTIONS request for a path
    that none of the five routes accepts is answered by the middleware, with
    204 and no payload, and never reaches the catch-all. *)
Lemma options_request_is_answered_by_cors :
  let req := Request "OPTIONS" "/nonexistent" Undefined [] in
  Forall (λ r, segment_match r.1.1 r.1.2 req = None) (routes ∅)
  ∧ app cors_default json_parsed segment_match ∅ req = Ret (send_empty 204)
  ∧ status (send_empty 204) ≠ 404.
Proof.
  intros req. split; [|split].
  - repeat constructor.
  - reflexivity.
  - discriminate.
Qed.

(** C8, amended.  Whatever the middleware and the matcher are: a request
    that the CORS middleware and the body parser both hand on, and that none
    of the five routes accepts, is answered by the catch-all with 404 and
    the payload [{ message: "Route not found", path }], where [path] is the
    URL of the request as it came in.  The answer is immediate: no statement
    is issued. *)
Theorem unmatched_request_is_404
    (cors express_json : middleware) (route_match : matcher)
    (e : env) (req : request) (b1 b2 : value) :
  cors req = Next b1 →
  express_json (with_body req b1) = Next b2 →
  Forall (λ r, route_match r.1.1 r.1.2 (with_body req b2) = None) (routes e) →
  app cors express_json route_match e req
  = Ret (json 404 (Obj [("message", Str "Route not found");
                        ("path", Str (originalUrl req))])).
Proof.
  intros Hcors Hjson Hnone. unfold app. rewrite Hcors, Hjson.
  by rewrite (dispatch_unmatched route_match _ _ Hnone).
Qed.

Lemma unmatched_request_is_404_witness :
  app cors_default json_parsed segment_match ∅
    (Request "GET" "/nonexistent" Undefined [])
  = Ret (json 404 (Obj [("message", Str "Route not found");
                        ("path", Str "/nonexistent")])).
Proof.
  apply (unmatched_request_is_404 cors_default json_parsed segment_match ∅
           (Request "GET" "/nonexistent" Undefined []) Undefined Undefined).
  - reflexivity.
  - reflexivity.
  - repeat constructor.
Defined.

(** * Further properties of the service *)

(** ** The qualified table name *)

(** X1.  Whatever the environment holds, the qualified table name is a
    back-quoted name of word characters, alone or preceded by a back-quoted
    database name of word characters and a dot: it always has the shape
    [`t`] or [`d`.`t`]. *)
Theorem fqtn_is_quoted_identifier (e : env) :
  ∃ t, WordOnly t
       ∧ (fqtn e = "`" +:+ t +:+ "`"
          ∨ ∃ d, WordOnly d ∧ fqtn e = "`" +:+ d +:+ "`.`" +:+ t +:+ "`").
Proof.
  assert (Ht : ∃ t, WordOnly t ∧ safeTable e = "`" +:+ t +:+ "`").
  { unfold safeTable. destruct (word_only (CARDS_TABLE e)) eqn:Hw.
    - exists (CARDS_TABLE e). split; [by apply word_only_spec|done].
    - exists "cards". split; [by apply word_only_spec|done]. }
  destruct Ht as (t & Hwt & Ht). exists t. split; [done|].
  unfold fqtn, safeDb. rewrite Ht.
  destruct (env_get e "DB_NAME") as [| | | |db| |]; try (by left).
  destruct (truthy (Str db) && word_only db) eqn:Hd; [|by left].
  apply andb_true_iff in Hd as [_ Hd]. right. exists db.
  split; [by apply word_only_spec|]. by rewrite !append_assoc.
Qed.

(** X2.  The statement texts depend on two variables of the environment
    only, [DB_NAME] and [CARDS_TABLE]: two environments that agree on both
    give the same text for every operation, whatever else they hold (host,
    user, password, ports). *)
Theorem statements_read_two_variables (e e' : env) (op : operation) :
  e !! "DB_NAME" = e' !! "DB_NAME" →
  e !! "CARDS_TABLE" = e' !! "CARDS_TABLE" →
  statement_of op e = statement_of op e'.
Proof.
  intros Hd Ht. apply statement_by_fqtn.
  unfold fqtn, safeDb, safeTable, CARDS_TABLE, env_get. by rewrite Hd, Ht.
Qed.

Lemma statements_read_two_variables_witness :
  let e : env := <["DB_HOST" := "db.internal"]> (<["DB_PASSWORD" := "s3cret`; --"]>
                   (<["PORT" := "8080"]> {["CARDS_TABLE" := "deck"]})) in
  update_sql e = update_sql {["CARDS_TABLE" := "deck"]}.
Proof.
  intros e.
  apply (statements_read_two_variables e {["CARDS_TABLE" := "deck"]} Update);
    reflexivity.
Defined.

(** ** Statements and the values bound to them *)

Lemma placeholders_app (s t : string) :
  placeholders (s +:+ t) = (placeholders s + placeholders t)%nat.
Proof.
  induction s as [|c s IH]; [done|].
  change (String c s +:+ t) with (String c (s +:+ t)). simpl. rewrite IH. lia.
Qed.

Lemma identifier_char_not_placeholder (c : ascii) :
  identifier_char c → Ascii.eqb c "?" = false.
Proof.
  intros [H|[->| ->]]; [|done..].
  destruct (Ascii.eqb_spec c "?") as [->|]; [|done].
  assert (Hw : word_char "?" = true)
    by (rewrite word_char_alphabet; by apply bool_decide_eq_true_2).
  discriminate Hw.
Qed.

Lemma placeholders_identifier (s : string) :
  (∀ c, c ∈ chars s → identifier_char c) → placeholders s = 0%nat.
Proof.
  induction s as [|c s IH]; intros H; [done|]. simpl.
  rewrite (identifier_char_not_placeholder c), IH; [done| |].
  - intros c' Hc'. apply H. unfold chars in *. simpl. by right.
  - apply H. unfold chars. simpl. by left.
Qed.

Lemma placeholders_fqtn (e : env) : placeholders (fqtn e) = 0%nat.
Proof. apply placeholders_identifier, fqtn_identifier. Qed.

Lemma placeholders_statement (op : operation) (e : env) (req : request) :
  placeholders (statement_of op e) = length (bound_values op req).
Proof.
  destruct op; simpl;
    unfold select_sql, insert_sql, update_sql, delete_sql;
    rewrite !placeholders_app, placeholders_fqtn; reflexivity.
Qed.

(** X3.  Every call of [pool.execute] that a store-facing handler makes
    binds exactly as many values as its statement text has [?]
    placeholders: none for List, two for Create, three for Update, one for
    Delete.  The table name never contributes a placeholder. *)
Theorem bound_values_fill_placeholders
    (e : env) (op : operation) (req : request) (sql : string) (vs : list value) :
  issues (handler_of op e req) sql vs →
  placeholders sql = length vs.
Proof.
  intros H. apply issues_handler in H as [-> ->]. apply placeholders_statement.
Qed.

Lemma bound_values_fill_placeholders_witness :
  placeholders (update_sql {["CARDS_TABLE" := "deck"]})
  = length [Str "Ace2"; Str "ace2.png"; Num 1].
Proof.
  apply (bound_values_fill_placeholders {["CARDS_TABLE" := "deck"]} Update
           (Request "PUT" "/updatecard"
              (Obj [("id", Num 1); ("card_name", Str "Ace2");
                    ("card_pic", Str "ace2.png")]) [])).
  apply issues_now.
Defined.

(** ** One statement per request *)

Ltac quiet_cases :=
  repeat (prog_simpl;
          match goal with
          | |- quiet (Ret _) => constructor
          | |- quiet (Throw _) => constructor
          | |- quiet (ConsoleError _ _ _) => constructor
          | |- quiet (Clock _) => constructor; intros ?
          | |- quiet ?p =>
              match p with
              | context [match ?x with _ => _ end] => destruct x eqn:?
              end
          end).

Lemma handler_at_most_one (op : operation) (e : env) (req : request) :
  at_most_one (handler_of op e req).
Proof.
  destruct op; simpl.
  - unfold allcards. prog_simpl. apply one_execute. intros o. quiet_cases.
  - unfold addcard. rewrite !read_or_else. prog_simpl.
    destruct (falsy _ || falsy _); [apply one_none; constructor|].
    prog_simpl. apply one_execute. intros o. quiet_cases.
  - unfold updatecard. rewrite !read_or_else. prog_simpl.
    destruct (falsy (field (req_body req) "id")); [apply one_none; constructor|].
    destruct (falsy _ || falsy _); [apply one_none; constructor|].
    prog_simpl. apply one_execute. intros o. quiet_cases.
  - unfold deletecard. rewrite read_params. prog_simpl.
    destruct (falsy _); [apply one_none; constructor|].
    prog_simpl. apply one_execute. intros o. quiet_cases.
Qed.

Lemma dispatch_at_most_one (route_match : matcher) (e : env) (req : request) :
  at_most_one (dispatch route_match (routes e) req).
Proof.
  unfold routes. simpl.
  destruct (route_match "GET" "/health" req);
    [apply one_none; unfold health; quiet_cases|].
  destruct (route_match "GET" "/allcards" req);
    [apply (handler_at_most_one ListAll)|].
  destruct (route_match "POST" "/addcard" req);
    [apply (handler_at_most_one Create)|].
  destruct (route_match "PUT" "/updatecard" req);
    [apply (handler_at_most_one Update)|].
  destruct (route_match "DELETE" "/deletecard/:id" req);
    [apply (handler_at_most_one Delete)|].
  apply one_none. constructor.
Qed.

Section Final_state.

Context {conn : Type}.
Variable execute : conn → string → list value → outcome * conn.
Variable clock : string.

Lemma quiet_keeps_store {A : Type} (p : prog A) (s : conn) :
  quiet p → (run execute clock p s).1.2 = s.
Proof.
  induction 1 as [a|x|tag x k _ IH|k _ IH]; simpl; [done|done| |apply IH].
  by destruct (run execute clock k s) as [[r s'] out].
Qed.

Lemma at_most_one_final_state {A : Type} (p : prog A) (s : conn) :
  at_most_one p →
  (run execute clock p s).1.2 = s
  ∨ ∃ sql vs, issues p sql vs ∧ (run execute clock p s).1.2 = (execute s sql vs).2.
Proof.
  induction 1 as [p Hq|tag x k _ IH|k _ IH|sql vs k Hq]; simpl.
  - left. by apply quiet_keeps_store.
  - destruct IH as [IH|(sql & vs & Hi & IH)].
    + left. by destruct (run execute clock k s) as [[r s'] out].
    + right. exists sql, vs. split; [by constructor|].
      by destruct (run execute clock k s) as [[r s'] out].
  - destruct (IH clock) as [H|(sql & vs & Hi & H)]; [by left|].
    right. exists sql, vs. split; [by econstructor|done].
  - right. exists sql, vs. split; [constructor|].
    destruct (execute s sql vs) as [o s'] eqn:Hx. simpl.
    by apply quiet_keeps_store.
Qed.

End Final_state.

(** X4.  Whatever the middleware, the matcher and the request are, the
    application calls [pool.execute] once at most while it answers a
    request: no path through any handler issues a second statement.  So
    after the request the store is in the state it was in, or in the state
    that one call left it in. *)
Theorem one_statement_per_request
    (cors express_json : middleware) (route_match : matcher)
    (e : env) (req : request) :
  at_most_one (app cors express_json route_match e req)
  ∧ ∀ (conn : Type) (execute : conn → string → list value → outcome * conn)
      (clock : string) (s : conn),
      let after := (run execute clock (app cors express_json route_match e req) s).1.2 in
      after = s
      ∨ ∃ sql vs, issues (app cors express_json route_match e req) sql vs
                  ∧ after = (execute s sql vs).2.
Proof.
  assert (H : at_most_one (app cors express_json route_match e req)).
  { unfold app. destruct (cors req) as [b1|resp]; [|apply one_none; constructor].
    destruct (express_json (with_body req b1)) as [b2|resp];
      [|apply one_none; constructor].
    apply dispatch_at_most_one. }
  split; [done|]. intros conn execute clock s.
  by apply at_most_one_final_state.
Qed.

(** ** What the handlers can answer *)

(** Case analysis on a finished run. *)
Ltac run_cases :=
  repeat (repeat (unfold mbind, mret, prog_bind, prog_ret, await_execute, read,
                    interpolate in *; simpl in *);
          simplify_eq;
          match goal with
          | H : context [match ?x with _ => _ end] |- _ => destruct x eqn:?
          end);
  repeat (unfold mbind, mret, prog_bind, prog_ret, await_execute, read,
            interpolate in *; simpl in *);
  simplify_eq.

Ltac status_goal :=
  split; [repeat first [apply list_elem_of_here | apply list_elem_of_further]
         |split; intros ?; (discriminate || reflexivity)].

(** X5.  Each operation answers with one of its own status codes only: List
    with 200 or 500, Create with 201, 400 or 500, Update with 200, 400, 404
    or 500, Delete with 204, 400, 404 or 500, whatever the request and the
    store are.  A response has no payload exactly when its status is
    204. *)
Theorem status_codes_by_operation
    {conn : Type} (execute : conn → string → list value → outcome * conn)
    (clock : string) (op : operation) (e : env) (req : request)
    (s s' : conn) (r : response) (out : list (string * exn)) :
  run execute clock (handler_of op e req) s = (Done r, s', out) →
  status r ∈ allowed_status op ∧ (body r = None ↔ status r = 204).
Proof.
  intros H. destruct op; simpl in H.
  - unfold allcards in H. run_cases; simpl; status_goal.
  - unfold addcard in H. rewrite !read_or_else in H.
    run_cases; simpl; status_goal.
  - unfold updatecard in H. rewrite !read_or_else in H.
    run_cases; simpl; status_goal.
  - unfold deletecard in H. rewrite read_params in H.
    run_cases; simpl; status_goal.
Qed.

(** ** Exceptions that leave a handler *)




(** ** Store failures *)

(** X7.  What a rejected statement tells the caller does not depend on why
    it was rejected.  Run the same operation on the same request against two
    pools that reject every statement, with two different errors: the runs
    end the same way (the same response, or the same exception), leave the
    same store state and write the same tags to the console.  The error
    itself appears in the console lines and nowhere else. *)
Theorem store_error_detail_stays_on_console
    {conn : Type} (execute1 execute2 : conn → string → list value → outcome * conn)
    (clock : string) (op : operation) (e : env) (req : request)
    (s s' : conn) (x1 x2 : exn) :
  (∀ sql vs, execute1 s sql vs = (Rejected x1, s')) →
  (∀ sql vs, execute2 s sql vs = (Rejected x2, s')) →
  (run execute1 clock (handler_of op e req) s).1
  = (run execute2 clock (handler_of op e req) s).1
  ∧ (run execute1 clock (handler_of op e req) s).2.*1
    = (run execute2 clock (handler_of op e req) s).2.*1
  ∧ Forall (λ line, line.2 = x1) (run execute1 clock (handler_of op e req) s).2.
Proof.
  intros H1 H2. destruct op; simpl.
  - unfold allcards. prog_simpl. rewrite H1, H2. simpl. by repeat constructor.
  - unfold addcard. rewrite !read_or_else. prog_simpl.
    destruct (falsy _ || falsy _); prog_simpl; [done|].
    rewrite H1, H2. prog_simpl.
    destruct (to_string (field (req_body req) "card_name")); simpl;
      by repeat constructor.
  - unfold updatecard. rewrite !read_or_else. prog_simpl.
    destruct (falsy (field (req_body req) "id")); prog_simpl; [done|].
    destruct (falsy _ || falsy _); prog_simpl; [done|].
    rewrite H1, H2. simpl. by repeat constructor.
  - unfold deletecard. rewrite read_params. prog_simpl.
    destruct (falsy _); prog_simpl; [done|].
    rewrite H1, H2. simpl. by repeat constructor.
Qed.

Lemma store_error_detail_stays_on_console_witness :
  let req := Request "PUT" "/updatecard"
               (Obj [("id", Num 1); ("card_name", Str "Ace2");
                     ("card_pic", Str "ace2.png")]) [] in
  (run (down "ECONNREFUSED 10.0.0.5:3306") "t" (updatecard ∅ req) ace_table).1
  = (run (down "ER_ACCESS_DENIED_ERROR for user app") "t" (updatecard ∅ req) ace_table).1
  ∧ (run (down "ECONNREFUSED 10.0.0.5:3306") "t" (updatecard ∅ req) ace_table).2.*1
    = (run (down "ER_ACCESS_DENIED_ERROR for user app") "t" (updatecard ∅ req) ace_table).2.*1
  ∧ Forall (λ line, line.2 = StoreError "ECONNREFUSED 10.0.0.5:3306")
      (run (down "ECONNREFUSED 10.0.0.5:3306") "t" (updatecard ∅ req) ace_table).2.
Proof.
  intros req.
  apply (store_error_detail_stays_on_console
           (down "ECONNREFUSED 10.0.0.5:3306") (down "ER_ACCESS_DENIED_ERROR for user app")
           "t" Update ∅ req ace_table ace_table
           (StoreError "ECONNREFUSED 10.0.0.5:3306")
           (StoreError "ER_ACCESS_DENIED_ERROR for user app")); reflexivity.
Defined.

Lemma store_error_is_500_witness :
  let req := Request "DELETE" "/deletecard/7" Undefined [("id", "7")] in
  run (down "ECONNREFUSED") "t" (deletecard ∅ req) ace_table
  = (Done (json 500 (message "Server error - could not delete card")), ace_table,
     [("[deletecard] error:", StoreError "ECONNREFUSED")]).
Proof.
  intros req.
  assert (Hne : "7" ≠ "") by discriminate.
  exact (proj2 (proj2 (store_error_is_500 (down "ECONNREFUSED") "t" ∅ req
                         ace_table ace_table (StoreError "ECONNREFUSED")))
           "7" eq_refl Hne eq_refl).
Defined.



(** ** Successful runs and early answers *)



(** X9.  Delete checks its route parameter before anything else: when [id]
    is absent or is the empty string, the handler is the program that
    answers 400 "id is required"; it issues no statement, and run against
    any store it leaves the store as it was. *)
Theorem deletecard_without_id (e : env) (req : request) :
  field (params_object req) "id" = Undefined
  ∨ field (params_object req) "id" = Str "" →
  deletecard e req = Ret (json 400 (message "id is required"))
  ∧ (∀ sql vs, ¬ issues (deletecard e req) sql vs)
  ∧ (∀ (conn : Type) (execute : conn → string → list value → outcome * conn)
       (clock : string) (s : conn),
       run execute clock (deletecard e req) s
       = (Done (json 400 (message "id is required")), s, [])).
Proof.
  intros H.
  assert (Hret : deletecard e req = Ret (json 400 (message "id is required"))).
  { unfold deletecard. rewrite read_params. by destruct H as [-> | ->]. }
  rewrite Hret. split; [done|]. split; [|done].
  intros sql vs Hi. inversion Hi.
Qed.

Lemma deletecard_without_id_witness :
  deletecard ∅ (Request "DELETE" "/deletecard/" Undefined [])
  = Ret (json 400 (message "id is required")).
Proof.
  apply (deletecard_without_id ∅ (Request "DELETE" "/deletecard/" Undefined [])).
  left. reflexivity.
Defined.

(** X10.  The health check does not depend on the store.  A request that the
    middleware hands on and that the first route, GET /health, accepts is
    answered with 200 and [{ status: "ok", time }], where [time] is the
    reading of the clock; no statement is issued, nothing is logged, and the
    answer is the same when the pool rejects everything. *)
Theorem health_ignores_store
    {conn : Type} (execute : conn → string → list value → outcome * conn)
    (clock : string) (cors express_json : middleware) (route_match : matcher)
    (e : env) (req : request) (b1 b2 : value) (ps : list (string * string))
    (s : conn) :
  cors req = Next b1 →
  express_json (with_body req b1) = Next b2 →
  route_match "GET" "/health" (with_body req b2) = Some ps →
  run execute clock (app cors express_json route_match e req) s
  = (Done (json 200 (Obj [("status", Str "ok"); ("time", Str clock)])), s, [])
  ∧ ∀ sql vs, ¬ issues (app cors express_json route_match e req) sql vs.
Proof.
  intros Hc Hj Hm. unfold app. rewrite Hc, Hj. unfold routes. simpl. rewrite Hm.
  split; [done|]. intros sql vs Hi. unfold health in Hi. prog_simpl_in Hi.
  inversion Hi; subst. no_issue.
Qed.

Lemma health_ignores_store_witness :
  run (down "ECONNREFUSED") "2026-01-01T00:00:00.000Z"
    (app cors_default json_parsed segment_match ∅
       (Request "GET" "/health" Undefined [])) empty_table
  = (Done (json 200 (Obj [("status", Str "ok");
                          ("time", Str "2026-01-01T00:00:00.000Z")])),
     empty_table, []).
Proof.
  apply (health_ignores_store (down "ECONNREFUSED") "2026-01-01T00:00:00.000Z"
           cors_default json_parsed segment_match ∅
           (Request "GET" "/health" Undefined []) Undefined Undefined []);
    reflexivity.
Defined.

(** X11.  List hands the caller what the store returned: when the statement
    resolves, the response is 200 and its payload is the result itself, not
    filtered, reordered or wrapped, and nothing is logged.  The request plays
    no part: List is the same program for every request. *)
Theorem allcards_returns_store_rows
    {conn : Type} (execute : conn → string → list value → outcome * conn)
    (clock : string) (e : env) (req : request) (s s' : conn) (rows : value) :
  execute s (select_sql e) [] = (Resolved rows, s') →
  run execute clock (allcards e req) s = (Done (json 200 rows), s', [])
  ∧ ∀ req', allcards e req' = allcards e req.
Proof.
  intros Hx. split; [|done]. by rewrite run_allcards, Hx.
Qed.

Lemma allcards_returns_store_rows_witness :
  run (table_execute ∅) "t" (allcards ∅ (Request "GET" "/allcards" Undefined []))
    ace_table
  = (Done (json 200 (Arr [Obj [("id", Num 1); ("card_name", Str "Ace");
                               ("card_pic", Str "ace.png")]])),
     ace_table, []).
Proof.
  apply (allcards_returns_store_rows (table_execute ∅) "t" ∅
           (Request "GET" "/allcards" Undefined []) ace_table ace_table).
  reflexivity.
Defined.

(** X12.  An operation reads nothing from the request but the values it
    binds.  Two requests that agree on those values ([card_name] and
    [card_pic] for Create, these and [id] for Update, the [id] parameter for
    Delete, nothing for List) give the same handler program, hence the same
    statement, the same responses and the same console lines against every
    store; other body properties, the URL and the method are ignored. *)
Theorem handler_reads_bound_values_only
    (op : operation) (e : env) (req1 req2 : request) :
  bound_values op req1 = bound_values op req2 →
  handler_of op e req1 = handler_of op e req2.
Proof.
  destruct op; simpl; intros H.
  - done.
  - injection H as Hn Hp. unfold addcard. rewrite !read_or_else. by rewrite Hn, Hp.
  - injection H as Hn Hp Hi. unfold updatecard. rewrite !read_or_else.
    by rewrite Hn, Hp, Hi.
  - injection H as Hi. unfold deletecard. prog_simpl. by rewrite Hi.
Qed.

Lemma handler_reads_bound_values_only_witness :
  addcard ∅ (Request "POST" "/addcard"
               (Obj [("id", Num 99); ("card_name", Str "Ace"); ("is_admin", Bool true);
                     ("card_pic", Str "ace.png")]) [("id", "5")])
  = addcard ∅ (Request "POST" "/addcard?x=1"
                 (Obj [("card_pic", Str "ace.png"); ("card_name", Str "Ace")]) []).
Proof.
  apply (handler_reads_bound_values_only Create). reflexivity.
Defined.

Lemma status_codes_by_operation_witness :
  status (json 404 (message "No card found with id 7")) ∈ allowed_status Update
  ∧ (body (json 404 (message "No card found with id 7")) = None
     ↔ status (json 404 (message "No card found with id 7")) = 204).
Proof.
  apply (status_codes_by_operation (table_execute ∅) "t" Update ∅
           (Request "PUT" "/updatecard"
              (Obj [("id", Num 7); ("card_name", Str "Ace2");
                    ("card_pic", Str "ace2.png")]) [])
           ace_table ace_table _ []).
  reflexivity.
Defined.
